(** * A devotional Q&A service: keyword matcher and answer formatter

    Shallow embedding of [app.py]: the dataset loader, [search_passage]
    and the [/ask] request handler, followed by the properties the
    specification states about them.

    Modelling choices.
    - A Python [str] is a [string] (a sequence of 8-bit characters; a
      character outside ASCII appears as its UTF-8 bytes).
    - The character tables of the Python runtime that the code relies on
      (the whitespace class of [str.strip], the [\w] class of [re], and
      [str.lower]) are the fields of a [CharTables] structure; the
      development is generic in it and is instantiated on the ASCII
      tables at the end.
    - A record is a Python [dict] from field names to JSON scalars, a
      [gmap string value].  JSON floats are outside the model.
    - Exceptions are results of a small error monad. *)

From Stdlib Require Import ZArith String Ascii DecimalString.
From stdpp Require Import base option list gmap strings.

#[local] Set Warnings "-register-all".
#[local] Open Scope nat_scope.

(** ** Python values *)

(** JSON scalars as [json.load] builds them: [None], [bool], [int], [str]. *)
Inductive value : Type :=
  | VNone
  | VBool (b : bool)
  | VInt (n : Z)
  | VStr (s : string).

(** A parsed JSON document: scalars, lists and dicts. *)
Inductive json : Type :=
  | JAtom (v : value)
  | JArr (xs : list json)
  | JObj (kvs : gmap string json).

(** One passage of the dataset: a [dict] of fields. *)
Abbreviation record := (gmap string value).

#[global] Instance value_eq_dec : EqDecision value.
Proof. solve_decision. Defined.

(** The exceptions the modelled code can raise. *)
Inductive exn : Type :=
  | AttributeError
  | KeyError (key : string)
  | JSONDecodeError.

Inductive result (A : Type) : Type :=
  | Ok (a : A)
  | Raise (e : exn).
Arguments Ok {A} a.
Arguments Raise {A} e.

#[global] Instance result_bind : MBind result := λ A B k m,
  match m with
  | Ok a => k a
  | Raise e => Raise e
  end.

(** ** Strings *)

Module Py.

(** The line feed character, written [\n] in the source. *)
Definition LF : string := String (ascii_of_nat 10) "".

(** [str(v)], which is also what an f-string field [{v}] inserts. *)
Definition str (v : value) : string :=
  match v with
  | VNone => "None"
  | VBool true => "True"
  | VBool false => "False"
  | VInt n => NilZero.string_of_int (Z.to_int n)
  | VStr s => s
  end.

(** [all(p(c) for c in s)] *)
Fixpoint all_chars (p : ascii → bool) (s : string) : bool :=
  match s with
  | "" => true
  | String c s' => p c && all_chars p s'
  end.

(** [c in s] for a single character [c]. *)
Fixpoint has_char (c : ascii) (s : string) : bool :=
  match s with
  | "" => false
  | String d s' => bool_decide (c = d) || has_char c s'
  end.

(** [s.startswith(sub)] *)
Fixpoint startswith (sub s : string) : bool :=
  match sub, s with
  | "", _ => true
  | String a sub', String b s' => bool_decide (a = b) && startswith sub' s'
  | String _ _, "" => false
  end.

(** The left-to-right scan of [str.count] for a non-empty [sub]:
    [skip] is the number of characters still to pass over after a
    match (occurrences do not overlap). *)
Fixpoint count_from (sub : string) (skip : nat) (s : string) : nat :=
  match s with
  | "" => 0
  | String _ s' =>
      match skip with
      | S k => count_from sub k s'
      | O =>
          if startswith sub s
          then S (count_from sub (String.length sub - 1) s')
          else count_from sub 0 s'
      end
  end.

(** [text.count(sub)]: the number of non-overlapping occurrences of
    [sub] in [text]; the empty string occurs between all characters. *)
Definition count (text sub : string) : nat :=
  match sub with
  | "" => S (String.length text)
  | String _ _ => count_from sub 0 text
  end.

Section Tables.
Variable is_space : ascii → bool.
Variable is_word : ascii → bool.

Fixpoint lstrip (s : string) : string :=
  match s with
  | "" => ""
  | String c s' => if is_space c then lstrip s' else s
  end.

Fixpoint rstrip (s : string) : string :=
  match s with
  | "" => ""
  | String c s' =>
      match rstrip s' with
      | "" => if is_space c then "" else String c ""
      | r => String c r
      end
  end.

(** [s.strip()] *)
Definition strip (s : string) : string := rstrip (lstrip s).

(** A match in progress is closed when a non-word character or the
    end of the string is reached. *)
Definition flush (cur : string) : list string :=
  match cur with
  | "" => []
  | String _ _ => [cur]
  end.

Fixpoint scan_words (cur : string) (s : string) : list string :=
  match s with
  | "" => flush cur
  | String c s' =>
      if is_word c
      then scan_words (cur +:+ String c "") s'
      else flush cur ++ scan_words "" s'
  end.

(** [re.findall(r"\w+", s)]: the maximal runs of word characters,
    from left to right. *)
Definition findall_words (s : string) : list string := scan_words "" s.
End Tables.

End Py.

(** The character tables of the runtime. *)
Class CharTables : Type := {
  is_space : ascii → bool;
  is_word : ascii → bool;
  lower : string → string
}.

(** What the proofs use of the tables: a space is not a word character,
    lowering works on each side of a space separately, and lowering
    produces no word character out of non-word characters. *)
Record TablesOk (T : CharTables) : Prop := {
  word_space : is_word " " = false;
  lower_empty : lower "" = "";
  lower_join : ∀ a b, lower (a +:+ " " +:+ b) = lower a +:+ " " +:+ lower b;
  lower_nonword : ∀ s,
    Py.all_chars (λ c, negb (is_word c)) s = true →
    Py.all_chars (λ c, negb (is_word c)) (lower s) = true
}.

(** ** The program *)

Section App.
Context {T : CharTables}.

(** [rec.get(key, '')] *)
Definition get (rec : record) (key : string) : value :=
  default (VStr "") (rec !! key).

(** [rec[key]] *)
Definition getitem (rec : record) (key : string) : result value :=
  match rec !! key with
  | Some v => Ok v
  | None => Raise (KeyError key)
  end.

(** Line 62: the text a record is compared on. *)
Definition comparison_text (rec : record) : string :=
  lower (Py.str (get rec "translation") +:+ " " +:+ Py.str (get rec "purport")).

(** Line 63: the score of a record for the query words. *)
Definition score (words : list string) (rec : record) : nat :=
  sum_list (Py.count (comparison_text rec) <$> words).

(** Lines 64-66: one iteration of the loop over [DATA], on the pair
    [(best_score, best_record)]. *)
Definition step (words : list string) (best : nat * option record) (rec : record)
    : nat * option record :=
  if fst best <? score words rec then (score words rec, Some rec) else best.

Definition scan (words : list string) (DATA : list record) : nat * option record :=
  fold_left (step words) DATA (0, None).

Definition tokenize (query : string) : list string :=
  Py.findall_words is_word (lower query).

Definition search_passage (DATA : list record) (query : string) : option record :=
  let words := tokenize query in
  match words with
  | [] => None
  | _ :: _ => snd (scan words DATA)
  end.

(** The fixed reply when nothing is found. *)
Definition apology : string :=
  "This information is not available in the provided texts. Chant Hare Krishna and be happy.".

(** Truth value of a JSON document, as [or] tests it. *)
Definition truthy (j : json) : bool :=
  match j with
  | JAtom VNone => false
  | JAtom (VBool b) => b
  | JAtom (VInt n) => bool_decide (n ≠ 0%Z)
  | JAtom (VStr s) => bool_decide (s ≠ "")
  | JArr xs => match xs with [] => false | _ :: _ => true end
  | JObj kvs => bool_decide (kvs ≠ ∅)
  end.

(** Line 85: [request.get_json(silent=True) or {}]; [body] is [None]
    when the request carries no JSON or JSON that does not parse. *)
Definition request_data (body : option json) : json :=
  match body with
  | Some j => if truthy j then j else JObj ∅
  | None => JObj ∅
  end.

(** Line 86: [data.get("question", "").strip()]; only a dict has
    [get] and only a string has [strip]. *)
Definition get_question (body : option json) : result string :=
  match request_data body with
  | JObj kvs =>
      match default (JAtom (VStr "")) (kvs !! "question") with
      | JAtom (VStr s) => Ok (Py.strip is_space s)
      | _ => Raise AttributeError
      end
  | _ => Raise AttributeError
  end.

(** Lines 89-95: the answer for a matched record. *)
Definition format_record (rec : record) : result string :=
  translation ← getitem rec "translation";
  purport ← getitem rec "purport";
  book ← getitem rec "book";
  chapter ← getitem rec "chapter";
  verse ← getitem rec "verse";
  author ← getitem rec "author";
  Ok ((Py.str translation +:+ Py.LF +:+ Py.LF)
      +:+ (Py.str purport +:+ Py.LF +:+ Py.LF)
      +:+ ("(" +:+ Py.str book +:+ ", Chapter " +:+ Py.str chapter
             +:+ ", Verse " +:+ Py.str verse +:+ ") ")
      +:+ ("– " +:+ Py.str author +:+ ". ")
      +:+ "Chant Hare Krishna and be happy.").

(** Lines 87-97: the answer for a question. *)
Definition answer (DATA : list record) (question : string) : result string :=
  match search_passage DATA question with
  | Some rec =>
      if bool_decide (rec ≠ ∅) then format_record rec else Ok apology
  | None => Ok apology
  end.

(** The handler of [POST /ask]; the result is the value of the
    ["answer"] key of the response. *)
Definition ask (DATA : list record) (body : option json) : result string :=
  question ← get_question body;
  answer DATA question.

End App.

(** ** The dataset loader *)

(** What opening and parsing [data.json] can give at startup. *)
Inductive data_file : Type :=
  | Missing
  | Malformed
  | Parsed (records : list record).

(** Lines 31-35: only [FileNotFoundError] is caught. *)
Definition load_data (f : data_file) : result (list record) :=
  match f with
  | Missing => Ok []
  | Malformed => Raise JSONDecodeError
  | Parsed records => Ok records
  end.

(** A process: load once, then serve a request. *)
Definition serve {T : CharTables} (f : data_file) (body : option json) : result string :=
  DATA ← load_data f;
  ask DATA body.

(** ** The ASCII tables *)

(** The tables of Python restricted to ASCII.  They agree with the
    runtime on ASCII text only: on other text Python's [\w],
    [str.lower] and [str.strip] follow Unicode.  The theorems below are
    stated for every [CharTables]; this instance serves the examples,
    which are all ASCII. *)

Module AsciiTables.

Definition between (lo hi : nat) (c : ascii) : bool :=
  (lo <=? nat_of_ascii c) && (nat_of_ascii c <=? hi).

(** Whitespace: tab to carriage return, the four separators, space. *)
Definition space (c : ascii) : bool :=
  between 9 13 c || between 28 32 c.

(** [[a-zA-Z0-9_]] *)
Definition word (c : ascii) : bool :=
  between 97 122 c || between 65 90 c || between 48 57 c
  || bool_decide (c = "_"%char).

Definition lower_char (c : ascii) : ascii :=
  if between 65 90 c then ascii_of_nat (nat_of_ascii c + 32) else c.

Fixpoint lower_string (s : string) : string :=
  match s with
  | "" => ""
  | String c s' => String (lower_char c) (lower_string s')
  end.

#[global] Instance tables : CharTables := {|
  is_space := space;
  is_word := word;
  lower := lower_string
|}.

End AsciiTables.

(** ** Reference definitions, in the specification's words *)

Section Reference.
Context {T : CharTables}.

(** The largest score in the dataset (0 for an empty one). *)
Definition best_score (words : list string) (DATA : list record) : nat :=
  max_list (score words <$> DATA).

(** The earliest record, in dataset order, that attains the largest
    score, when that score is positive. *)
Definition earliest_best (words : list string) (DATA : list record) : option record :=
  if best_score words DATA =? 0 then None
  else find (λ rec, score words rec =? best_score words DATA) DATA.

(** The record with its translation and purport exchanged (a field
    that is absent on one side is absent on the other afterwards). *)
Definition swap_fields (rec : record) : record :=
  partial_alter (λ _, rec !! "translation") "purport"
    (partial_alter (λ _, rec !! "purport") "translation" rec).

(** [sub] occurs in [text]. *)
Definition occurs_in (sub text : string) : Prop :=
  ∃ before after, text = before +:+ sub +:+ after.
End Reference.

(** The leftmost non-overlapping occurrences of [sub] in a text, read
    off its decompositions: an occurrence at the front is taken and
    the reading resumes after it, otherwise one character is passed. *)
Inductive occurrences (sub : string) : string → nat → Prop :=
  | occ_end : occurrences sub "" 0
  | occ_hit rest n :
      occurrences sub rest n →
      occurrences sub (sub +:+ rest) (S n)
  | occ_miss c rest n :
      Py.startswith sub (String c rest) = false →
      occurrences sub rest n →
      occurrences sub (String c rest) n.

(** A word: not empty, made of characters of the class [p] only. *)
Definition wordlike (p : ascii → bool) (w : string) : Prop :=
  w ≠ "" ∧ Py.all_chars p w = true.

(** ** Sample data *)

Module Sample.

(** The record of the specification's worked example. *)
Definition rec_BG : record :=
  {[ "book" := VStr "BG"; "chapter" := VStr "2"; "verse" := VStr "47";
     "translation" := VStr "Perform your duty";
     "purport" := VStr "Duty is dharma";
     "author" := VStr "Prabhupada" ]}.

Definition passage (verse : Z) (translation purport : string) : record :=
  {[ "book" := VStr "BG"; "chapter" := VInt 6; "verse" := VInt verse;
     "translation" := VStr translation; "purport" := VStr purport;
     "author" := VStr "Prabhupada" ]}.

Definition yoga_once : record := passage 1 "Yoga is the path" "It is taught here".
Definition yoga_twice : record := passage 2 "Yoga of action" "Such yoga frees one".
Definition yoga_also : record := passage 4 "Practice of yoga" "Steady mind".
Definition dharma_thrice : record :=
  passage 3 "Dharma protects dharma; follow dharma" "".

(** A record with a translation and nothing else. *)
Definition bare : record := {[ "translation" := VStr "Yoga is the path" ]}.

(** The body [{"question": q}]. *)
Definition asking (q : string) : option json :=
  Some (JObj {[ "question" := JAtom (VStr q) ]}).

End Sample.

(** ** Further reference definitions *)

(** The keys the formatter reads, in the order it reads them. *)
Definition answer_fields : list string :=
  ["translation"; "purport"; "book"; "chapter"; "verse"; "author"].

(** A record that carries every key the formatter reads. *)
Definition complete (rec : record) : Prop :=
  Forall (λ key, is_Some (rec !! key)) answer_fields.

(** The closing sentence of every answer. *)
Definition benediction : string := "Chant Hare Krishna and be happy.".

(** [s.endswith(suffix)] *)
Definition ends_with (suffix s : string) : Prop :=
  ∃ before, s = before +:+ suffix.

(** [sep.join(ws)] for a one-character [sep]. *)
Fixpoint join (sep : ascii) (ws : list string) : string :=
  match ws with
  | [] => ""
  | [w] => w
  | w :: ws' => w +:+ String sep (join sep ws')
  end.

(** * Properties *)

(** ** Strings *)

Section StringFacts.

Lemma app_cons c (s t : string) : String c s +:+ t = String c (s +:+ t).
Proof. reflexivity. Qed.

Lemma app_empty_l (s : string) : "" +:+ s = s.
Proof. reflexivity. Qed.

Lemma app_assoc_str (s t u : string) : (s +:+ t) +:+ u = s +:+ t +:+ u.
Proof. induction s as [|c s IH]; [done|]. by rewrite !app_cons, IH. Qed.

Lemma length_app_str (s t : string) :
  String.length (s +:+ t) = String.length s + String.length t.
Proof. induction s as [|c s IH]; [done|]. rewrite app_cons. simpl. by rewrite IH. Qed.

Lemma all_chars_app p (s t : string) :
  Py.all_chars p (s +:+ t) = Py.all_chars p s && Py.all_chars p t.
Proof.
  induction s as [|c s IH]; [done|].
  rewrite app_cons. simpl. rewrite IH. by rewrite andb_assoc.
Qed.

Lemma startswith_app (sub rest : string) : Py.startswith sub (sub +:+ rest) = true.
Proof.
  induction sub as [|c sub IH]; [done|].
  rewrite app_cons. simpl. rewrite IH. by rewrite bool_decide_eq_true_2.
Qed.

Lemma startswith_inv (sub s : string) :
  Py.startswith sub s = true → ∃ rest, s = sub +:+ rest.
Proof.
  revert s. induction sub as [|c sub IH]; intros s H.
  - by exists s.
  - destruct s as [|d s]; [done|]. simpl in H.
    apply andb_true_iff in H as [Hc Hs]. apply bool_decide_eq_true in Hc as ->.
    destruct (IH _ Hs) as [rest ->]. by exists rest.
Qed.

Lemma startswith_length (sub s : string) :
  Py.startswith sub s = true → String.length sub ≤ String.length s.
Proof.
  intros [rest ->]%startswith_inv. rewrite length_app_str. lia.
Qed.

(** Passing over [skip] characters is dropping a prefix of that length. *)
Lemma count_from_skip sub (pre rest : string) :
  Py.count_from sub (String.length pre) (pre +:+ rest) = Py.count_from sub 0 rest.
Proof.
  induction pre as [|c pre IH]; [by destruct rest|].
  rewrite app_cons. simpl. apply IH.
Qed.

Lemma count_from_hit c sub rest :
  Py.count_from (String c sub) 0 (String c sub +:+ rest)
  = S (Py.count_from (String c sub) 0 rest).
Proof.
  rewrite app_cons. cbn [Py.count_from].
  rewrite <- (app_cons c sub rest), startswith_app.
  f_equal. replace (String.length (String c sub) - 1) with (String.length sub)
    by (simpl; lia).
  apply count_from_skip.
Qed.

Lemma count_from_miss sub c rest :
  Py.startswith sub (String c rest) = false →
  Py.count_from sub 0 (String c rest) = Py.count_from sub 0 rest.
Proof. intros H. cbn [Py.count_from]. by rewrite H. Qed.

(** [count] computes the leftmost non-overlapping occurrences. *)
Lemma count_occurrences sub text :
  sub ≠ "" → occurrences sub text (Py.count text sub).
Proof.
  intros Hsub. destruct sub as [|a sub]; [done|]. unfold Py.count.
  remember (String.length text) as n eqn:Hn.
  revert text Hn. induction (lt_wf n) as [n _ IH]. intros text ->.
  destruct text as [|c text]; [constructor|].
  destruct (Py.startswith (String a sub) (String c text)) eqn:Hs.
  - destruct (startswith_inv _ _ Hs) as [rest Hrest]. rewrite Hrest.
    rewrite count_from_hit. constructor.
    apply (IH (String.length rest)); [|done].
    rewrite Hrest, length_app_str. simpl. lia.
  - rewrite (count_from_miss _ _ _ Hs). constructor; [done|].
    apply (IH (String.length text)); [simpl; lia|done].
Qed.

Lemma occurrences_count sub text n :
  sub ≠ "" → occurrences sub text n → Py.count text sub = n.
Proof.
  intros Hsub Hn. destruct sub as [|a sub]; [done|]. unfold Py.count.
  induction Hn as [|rest n Hn IH|c rest n Hc Hn IH].
  - done.
  - by rewrite count_from_hit, IH.
  - by rewrite count_from_miss, IH.
Qed.

End StringFacts.

(** ** Counting on each side of a separator *)

Section Separator.
Variable sep : ascii.

Lemma startswith_sep (w a b : string) :
  Py.has_char sep w = false →
  Py.startswith w (a +:+ String sep b) = Py.startswith w a.
Proof.
  revert a. induction w as [|x w IH]; intros a Hw; [done|].
  simpl in Hw. apply orb_false_iff in Hw as [Hx Hw].
  destruct a as [|c a].
  - rewrite app_empty_l. simpl.
    apply bool_decide_eq_false in Hx.
    rewrite bool_decide_eq_false_2; [done|congruence].
  - rewrite app_cons. simpl. by rewrite IH.
Qed.

Lemma count_from_sep (w a b : string) (skip : nat) :
  w ≠ "" → Py.has_char sep w = false → skip ≤ String.length a →
  Py.count_from w skip (a +:+ String sep b)
  = Py.count_from w skip a + Py.count_from w 0 b.
Proof.
  intros Hne Hw. revert skip. induction a as [|c a IH]; intros skip Hskip.
  - simpl in Hskip. replace skip with 0 by lia.
    rewrite app_empty_l. cbn [Py.count_from].
    rewrite <- (app_empty_l (String sep b)), startswith_sep by done.
    by destruct w.
  - rewrite app_cons. destruct skip as [|k].
    + cbn [Py.count_from].
      rewrite <- (app_cons c a), startswith_sep by done.
      destruct (Py.startswith w (String c a)) eqn:Hs.
      * rewrite IH; [done|]. apply startswith_length in Hs. simpl in Hs. lia.
      * apply IH. lia.
    + cbn [Py.count_from]. apply IH. simpl in Hskip. lia.
Qed.

(** A word without the separator is counted on each side separately. *)
Lemma count_sep (w a b : string) :
  w ≠ "" → Py.has_char sep w = false →
  Py.count (a +:+ String sep b) w = Py.count a w + Py.count b w.
Proof.
  intros Hne Hw. destruct w as [|x w]; [done|].
  unfold Py.count. apply count_from_sep; [done|done|lia].
Qed.
End Separator.

(** A counted word occurs in the text. *)
Lemma count_from_occurs (w text : string) (skip : nat) :
  0 < Py.count_from w skip text → occurs_in w text.
Proof.
  revert skip. induction text as [|c text IH]; intros skip H; [simpl in H; lia|].
  destruct skip as [|k]; cbn [Py.count_from] in H.
  - destruct (Py.startswith w (String c text)) eqn:Hs.
    + destruct (startswith_inv _ _ Hs) as [rest ->]. by exists "", rest.
    + destruct (IH _ H) as (pre & post & ->). by exists (String c pre), post.
  - destruct (IH _ H) as (pre & post & ->). by exists (String c pre), post.
Qed.

Lemma count_occurs (w text : string) :
  w ≠ "" → 0 < Py.count text w → occurs_in w text.
Proof.
  intros Hne H. destruct w as [|x w]; [done|]. by apply count_from_occurs in H.
Qed.

(** ** The words of a query *)

Section Words.
Variable is_word : ascii → bool.

Lemma flush_wordlike cur :
  Py.all_chars is_word cur = true → Forall (wordlike is_word) (Py.flush cur).
Proof.
  intros H. destruct cur; [constructor|].
  repeat constructor; done.
Qed.

Lemma scan_words_wordlike cur s :
  Py.all_chars is_word cur = true →
  Forall (wordlike is_word) (Py.scan_words is_word cur s).
Proof.
  revert cur. induction s as [|c s IH]; intros cur Hcur; simpl.
  - by apply flush_wordlike.
  - destruct (is_word c) eqn:Hc.
    + apply IH. rewrite all_chars_app, Hcur. simpl. by rewrite Hc.
    + apply Forall_app. split; [by apply flush_wordlike|by apply IH].
Qed.

Lemma findall_words_wordlike s : Forall (wordlike is_word) (Py.findall_words is_word s).
Proof. by apply scan_words_wordlike. Qed.

(** Without a word character there is no word. *)
Lemma findall_words_none s :
  Py.all_chars (λ c, negb (is_word c)) s = true → Py.findall_words is_word s = [].
Proof.
  unfold Py.findall_words. induction s as [|c s IH]; simpl; [done|].
  intros [Hc Hs]%andb_true_iff. apply negb_true_iff in Hc. rewrite Hc.
  by apply IH.
Qed.

(** A word holds no character outside the class. *)
Lemma wordlike_has_char w c :
  is_word c = false → wordlike is_word w → Py.has_char c w = false.
Proof.
  intros Hc [_ Hw]. induction w as [|x w IH]; [done|].
  simpl in *. apply andb_true_iff in Hw as [Hx Hw].
  rewrite IH by done. rewrite bool_decide_eq_false_2; [done|].
  intros ->. congruence.
Qed.

Variable is_space : ascii → bool.

Lemma lstrip_all p s :
  Py.all_chars p s = true → Py.all_chars p (Py.lstrip is_space s) = true.
Proof.
  induction s as [|c s IH]; [done|]. intros H. simpl.
  destruct (is_space c); [|done].
  simpl in H. apply andb_true_iff in H as [_ H]. by apply IH.
Qed.

Lemma rstrip_all p s :
  Py.all_chars p s = true → Py.all_chars p (Py.rstrip is_space s) = true.
Proof.
  induction s as [|c s IH]; [done|]. intros [Hc Hs]%andb_true_iff. simpl.
  specialize (IH Hs). destruct (Py.rstrip is_space s) as [|d r].
  - destruct (is_space c); [done|]. simpl. by rewrite Hc.
  - simpl in *. by rewrite Hc, IH.
Qed.

(** Stripping removes characters and adds none. *)
Lemma strip_all p s :
  Py.all_chars p s = true → Py.all_chars p (Py.strip is_space s) = true.
Proof. intros H. by apply rstrip_all, lstrip_all. Qed.
End Words.

(** ** The scan over the dataset *)

Section Matcher.
Context {T : CharTables}.
Implicit Types (words : list string) (DATA : list record) (rec : record).

Lemma best_score_cons words rec DATA :
  best_score words (rec :: DATA) = score words rec `max` best_score words DATA.
Proof. reflexivity. Qed.

Lemma best_score_ge words DATA rec :
  rec ∈ DATA → score words rec ≤ best_score words DATA.
Proof.
  intros H. apply max_list_elem_of_le, list_elem_of_fmap. by exists rec.
Qed.

(** The loop, started from any pair [(b, h)]: the holder changes only
    if some score exceeds [b], and then to the earliest record with
    the largest score. *)
Lemma scan_from words DATA (b : nat) (h : option record) :
  fold_left (step words) DATA (b, h)
  = if b <? best_score words DATA
    then (best_score words DATA,
          find (λ rec, score words rec =? best_score words DATA) DATA)
    else (b, h).
Proof.
  revert b h. induction DATA as [|rec DATA IH]; intros b h.
  - reflexivity.
  - cbn [fold_left]. rewrite best_score_cons. cbn [find].
    change (step words (b, h) rec)
      with (if b <? score words rec then (score words rec, Some rec) else (b, h)).
    destruct (Nat.ltb_spec b (score words rec)); rewrite IH.
    + destruct (Nat.ltb_spec (score words rec) (best_score words DATA)).
      * rewrite (proj2 (Nat.ltb_lt _ _)) by lia.
        rewrite Nat.max_r by lia.
        by rewrite (proj2 (Nat.eqb_neq _ _)) by lia.
      * rewrite (proj2 (Nat.ltb_lt _ _)) by lia.
        rewrite Nat.max_l by lia. by rewrite Nat.eqb_refl.
    + destruct (Nat.ltb_spec b (best_score words DATA)).
      * rewrite Nat.max_r by lia.
        rewrite (proj2 (Nat.ltb_lt _ _)) by lia.
        by rewrite (proj2 (Nat.eqb_neq _ _)) by lia.
      * by rewrite (proj2 (Nat.ltb_ge _ _)) by lia.
Qed.

Lemma scan_earliest_best words DATA :
  snd (scan words DATA) = earliest_best words DATA.
Proof.
  unfold scan, earliest_best. rewrite scan_from.
  destruct (Nat.eqb_spec (best_score words DATA) 0) as [->|Hne]; [done|].
  by rewrite (proj2 (Nat.ltb_lt _ _)) by lia.
Qed.

(** [find] returns the element at the first index that qualifies. *)
Lemma find_first {A} (p : A → bool) (l : list A) (i : nat) (x : A) :
  l !! i = Some x → p x = true →
  (∀ j y, j < i → l !! j = Some y → p y = false) →
  find p l = Some x.
Proof.
  revert i. induction l as [|a l IH]; intros i Hi Hx Hbefore; [done|].
  destruct i as [|i]; simpl in *.
  - injection Hi as ->. by rewrite Hx.
  - rewrite (Hbefore 0 a) by (done || lia).
    apply (IH i); [done|done|].
    intros j y Hj Hy. apply (Hbefore (S j) y); [lia|done].
Qed.

(** The holder always scored at least 1. *)
Lemma scan_positive words DATA rec :
  snd (scan words DATA) = Some rec → rec ∈ DATA ∧ 0 < score words rec.
Proof.
  rewrite scan_earliest_best. unfold earliest_best.
  destruct (Nat.eqb_spec (best_score words DATA) 0) as [|Hne]; [done|].
  intros H. apply find_some in H as [Hin Heq].
  apply Nat.eqb_eq in Heq. split; [by apply list_elem_of_In|lia].
Qed.

(** Multiplying every score by the same positive factor does not
    change the holder. *)
Lemma scan_scaled words1 words2 (k : nat) DATA (b : nat) (h : option record) :
  0 < k → (∀ rec, score words2 rec = k * score words1 rec) →
  fold_left (step words2) DATA (k * b, h)
  = (k * fst (fold_left (step words1) DATA (b, h)),
     snd (fold_left (step words1) DATA (b, h))).
Proof.
  intros Hk Hsc. revert b h. induction DATA as [|rec DATA IH]; intros b h.
  - reflexivity.
  - cbn [fold_left].
    change (step words1 (b, h) rec)
      with (if b <? score words1 rec then (score words1 rec, Some rec) else (b, h)).
    change (step words2 (k * b, h) rec)
      with (if k * b <? score words2 rec then (score words2 rec, Some rec)
            else (k * b, h)).
    rewrite Hsc. destruct (Nat.ltb_spec b (score words1 rec)).
    + rewrite (proj2 (Nat.ltb_lt _ _)) by nia. apply IH.
    + rewrite (proj2 (Nat.ltb_ge _ _)) by nia. apply IH.
Qed.

Lemma score_replicate (k : nat) w rec :
  score (replicate k w) rec = k * score [w] rec.
Proof.
  unfold score. induction k as [|k IH]; [done|].
  cbn [replicate fmap list_fmap sum_list] in *. rewrite IH. simpl. lia.
Qed.
End Matcher.

(** ** The ASCII tables satisfy the assumptions *)

Section AsciiFacts.
Import AsciiTables.

Lemma lower_string_app (a b : string) :
  lower_string (a +:+ b) = lower_string a +:+ lower_string b.
Proof.
  induction a as [|c a IH]; [done|].
  rewrite app_cons. simpl. by rewrite IH.
Qed.

Lemma lower_char_nonword (c : ascii) :
  word c = false → word (lower_char c) = false.
Proof. destruct c as [[] [] [] [] [] [] [] []]; vm_compute; congruence. Qed.

Lemma lower_string_nonword (s : string) :
  Py.all_chars (λ c, negb (word c)) s = true →
  Py.all_chars (λ c, negb (word c)) (lower_string s) = true.
Proof.
  induction s as [|c s IH]; [done|]. simpl.
  intros [Hc Hs]%andb_true_iff. apply negb_true_iff in Hc.
  by rewrite (lower_char_nonword _ Hc), IH.
Qed.

Lemma ascii_tables_ok : TablesOk tables.
Proof.
  split.
  - reflexivity.
  - reflexivity.
  - intros a b. cbn [lower tables]. by rewrite !lower_string_app.
  - apply lower_string_nonword.
Qed.
End AsciiFacts.

(** ** The best record *)

Section Best.
Context {T : CharTables}.
Implicit Types (words : list string) (DATA : list record) (rec : record).

Lemma best_score_attained words DATA :
  DATA ≠ [] → ∃ rec, rec ∈ DATA ∧ score words rec = best_score words DATA.
Proof.
  intros Hne. unfold best_score.
  assert (score words <$> DATA ≠ []) as H by (by destruct DATA).
  apply max_list_elem_of, list_elem_of_fmap in H as (rec & Heq & Hin). eauto.
Qed.

Lemma best_score_zero words DATA :
  (∀ rec, rec ∈ DATA → score words rec = 0) → best_score words DATA = 0.
Proof.
  intros H. destruct DATA as [|r DATA]; [done|].
  destruct (best_score_attained words (r :: DATA)) as (rec & Hin & <-); [done|].
  by apply H.
Qed.

(** [search_passage] is the earliest best record, for every query. *)
Lemma search_passage_earliest_best DATA query :
  search_passage DATA query = earliest_best (tokenize query) DATA.
Proof.
  unfold search_passage. destruct (tokenize query) as [|w ws] eqn:Hw.
  - unfold earliest_best. by rewrite best_score_zero.
  - apply scan_earliest_best.
Qed.

(** The earliest record with the largest score is returned when that
    score is positive. *)
Lemma search_passage_first DATA query (i : nat) rec :
  DATA !! i = Some rec →
  0 < score (tokenize query) rec →
  score (tokenize query) rec = best_score (tokenize query) DATA →
  (∀ j rec', j < i → DATA !! j = Some rec' →
     score (tokenize query) rec' < score (tokenize query) rec) →
  search_passage DATA query = Some rec.
Proof.
  intros Hi Hpos Hbest Hbefore.
  rewrite search_passage_earliest_best. unfold earliest_best.
  rewrite (proj2 (Nat.eqb_neq _ _)) by lia.
  apply (find_first _ _ i); [done|by apply Nat.eqb_eq|].
  intros j rec' Hj Hrec'. apply Nat.eqb_neq.
  specialize (Hbefore j rec' Hj Hrec'). lia.
Qed.

Lemma search_passage_none DATA query :
  (∀ rec, rec ∈ DATA → score (tokenize query) rec = 0) →
  search_passage DATA query = None.
Proof.
  intros H. rewrite search_passage_earliest_best. unfold earliest_best.
  by rewrite best_score_zero.
Qed.

(** Every word of a query is counted by leftmost non-overlapping
    occurrences. *)
Lemma score_occurrences query rec :
  ∃ counts : list nat,
    Forall2 (λ w n, occurrences w (comparison_text rec) n) (tokenize query) counts
    ∧ score (tokenize query) rec = sum_list counts.
Proof.
  exists (Py.count (comparison_text rec) <$> tokenize query). split; [|done].
  apply Forall2_fmap_r, Forall_Forall2_diag.
  eapply Forall_impl; [apply findall_words_wordlike|].
  intros w [Hne _]. by apply count_occurrences.
Qed.

(** The fields of the exchanged record. *)
Lemma get_swap_translation rec :
  get (swap_fields rec) "translation" = get rec "purport".
Proof.
  unfold get, swap_fields. rewrite lookup_partial_alter.
  rewrite decide_False by done. rewrite lookup_partial_alter.
  by rewrite decide_True.
Qed.

Lemma get_swap_purport rec :
  get (swap_fields rec) "purport" = get rec "translation".
Proof.
  unfold get, swap_fields. rewrite lookup_partial_alter.
  by rewrite decide_True.
Qed.

(** A word of a query is counted in the translation and in the purport
    separately. *)
Lemma count_comparison_text (HT : TablesOk T) rec (w : string) :
  wordlike is_word w →
  Py.count (comparison_text rec) w
  = Py.count (lower (Py.str (get rec "translation"))) w
    + Py.count (lower (Py.str (get rec "purport"))) w.
Proof.
  intros Hw. unfold comparison_text. rewrite (lower_join T HT).
  apply count_sep; [apply Hw|].
  apply (wordlike_has_char is_word); [apply (word_space T HT)|done].
Qed.

Lemma sum_list_fmap_ext {A} (f g : A → nat) (l : list A) :
  Forall (λ x, f x = g x) l → sum_list (f <$> l) = sum_list (g <$> l).
Proof. induction 1 as [|x l Hx _ IH]; [done|]. csimpl. by rewrite Hx, IH. Qed.

Lemma sum_list_positive (ns : list nat) :
  0 < sum_list ns → ∃ n, n ∈ ns ∧ 0 < n.
Proof.
  induction ns as [|n ns IH]; simpl; [lia|]. intros H.
  destruct (decide (0 < n)) as [Hn|Hn].
  - exists n. split; [left|done].
  - destruct IH as (m & Hin & Hm); [lia|]. exists m. split; [by right|done].
Qed.

(** The empty record scores 0 for every query. *)
Lemma score_empty_record (HT : TablesOk T) query :
  score (tokenize query) ∅ = 0.
Proof.
  unfold score.
  rewrite (sum_list_fmap_ext _ (λ _, 0) (tokenize query)).
  - induction (tokenize query) as [|w ws IH]; [done|]. csimpl. by rewrite IH.
  - eapply Forall_impl; [apply findall_words_wordlike|].
    intros w Hw. rewrite (count_comparison_text HT) by done.
    unfold get. rewrite !lookup_empty. cbn [default Py.str].
    rewrite (lower_empty T HT). destruct Hw as [Hne _]. by destruct w.
Qed.

(** A question without a word character finds nothing. *)
Lemma search_passage_no_word (HT : TablesOk T) DATA (query : string) :
  Py.all_chars (λ c, negb (is_word c)) query = true →
  search_passage DATA query = None.
Proof.
  intros H. unfold search_passage, tokenize.
  by rewrite findall_words_none by (by apply (lower_nonword T HT)).
Qed.

Lemma answer_no_match DATA (question : string) :
  search_passage DATA question = None → answer DATA question = Ok apology.
Proof. intros H. unfold answer. by rewrite H. Qed.

(** The question of a body that is a dict with a text under
    ["question"]. *)
Lemma get_question_text (kvs : gmap string json) (s : string) :
  kvs !! "question" = Some (JAtom (VStr s)) →
  get_question (Some (JObj kvs)) = Ok (Py.strip is_space s).
Proof.
  intros H. unfold get_question, request_data, truthy.
  rewrite bool_decide_eq_true_2.
  - by rewrite H.
  - intros ->. by rewrite lookup_empty in H.
Qed.

End Best.

(** ** Claims *)

Section Claims.
Context {T : CharTables}.
Implicit Types (words : list string) (DATA : list record) (rec : record).

(** C1. For every query and dataset, the score of a record is the sum,
    over the query words, of the number of non-overlapping occurrences
    of the word in the lowercased, space-joined translation and purport.
    When some record scores above 0, a record whose score is strictly
    greater than the score of every other record is the one returned
    (so of two records that hold the query word once and twice, the
    second is returned, in either order); when no record scores above
    0, nothing is returned. *)
Theorem C1_search_passage_highest_score DATA query :
  (∀ rec,
     comparison_text rec
       = lower (Py.str (get rec "translation") +:+ " " +:+ Py.str (get rec "purport"))
     ∧ ∃ counts : list nat,
         Forall2 (λ w n, occurrences w (comparison_text rec) n) (tokenize query) counts
         ∧ score (tokenize query) rec = sum_list counts)
  ∧ (∀ (i : nat) rec,
       DATA !! i = Some rec →
       (∃ r, r ∈ DATA ∧ 0 < score (tokenize query) r) →
       (∀ j rec', j ≠ i → DATA !! j = Some rec' →
          score (tokenize query) rec' < score (tokenize query) rec) →
       search_passage DATA query = Some rec)
  ∧ (∀ (A B : record) (w : string),
       tokenize query = [w] →
       Py.count (comparison_text A) w = 1 →
       Py.count (comparison_text B) w = 2 →
       search_passage [A; B] query = Some B ∧ search_passage [B; A] query = Some B)
  ∧ ((∀ rec, rec ∈ DATA → score (tokenize query) rec = 0) →
     search_passage DATA query = None).
Proof.
  split; [|split; [|split]].
  - intros rec. split; [done|apply score_occurrences].
  - intros i rec Hi (r & Hr & Hpos) Hothers.
    assert (0 < score (tokenize query) rec) as Hrec.
    { apply list_elem_of_lookup in Hr as [j Hj].
      destruct (decide (j = i)) as [->|Hne]; [congruence|].
      specialize (Hothers j r Hne Hj). lia. }
    apply (search_passage_first _ _ i); [done|done| |].
    + destruct (best_score_attained (tokenize query) DATA) as (r' & Hin & Hr').
      { intros ->. done. }
      apply list_elem_of_lookup in Hin as [j Hj].
      destruct (decide (j = i)) as [->|Hne]; [congruence|].
      specialize (Hothers j r' Hne Hj).
      pose proof (best_score_ge (tokenize query) DATA rec
                    (list_elem_of_lookup_2 _ _ _ Hi)). lia.
    + intros j rec' Hj Hrec'. apply (Hothers j); [lia|done].
  - intros A B w Hw HA HB. unfold search_passage, scan. rewrite Hw.
    cbn [fold_left]. unfold step, score. cbn [fmap list_fmap sum_list fst].
    rewrite HA, HB. done.
  - apply search_passage_none.
Qed.

(** C4 (amended). The loop starts from score 0 with no record and
    replaces the holder only on a strictly greater score.  So when the
    largest score is positive, [search_passage] returns the earliest
    record, in dataset order, among those that attain it; when the
    largest score is 0 it returns nothing. *)
Theorem C4_ties_keep_earliest DATA query :
  search_passage DATA query
    = match tokenize query with
      | [] => None
      | _ :: _ => snd (fold_left (step (tokenize query)) DATA (0, None))
      end
  ∧ (∀ (best : nat) (holder : option record) rec,
       step (tokenize query) (best, holder) rec
       = if decide (best < score (tokenize query) rec)
         then (score (tokenize query) rec, Some rec) else (best, holder))
  ∧ search_passage DATA query = earliest_best (tokenize query) DATA
  ∧ (∀ (i : nat) rec,
       DATA !! i = Some rec →
       0 < score (tokenize query) rec →
       score (tokenize query) rec = best_score (tokenize query) DATA →
       (∀ j rec', j < i → DATA !! j = Some rec' →
          score (tokenize query) rec' < score (tokenize query) rec) →
       search_passage DATA query = Some rec)
  ∧ (best_score (tokenize query) DATA = 0 → search_passage DATA query = None).
Proof.
  split; [|split; [|split; [|split]]].
  - unfold search_passage, scan. by destruct (tokenize query).
  - intros best holder rec. unfold step. cbn [fst].
    destruct (Nat.ltb_spec best (score (tokenize query) rec)); case_decide; done || lia.
  - apply search_passage_earliest_best.
  - apply search_passage_first.
  - intros H. rewrite search_passage_earliest_best. unfold earliest_best. by rewrite H.
Qed.

(** C7. When the words of a query are one word [w] repeated [k] times,
    every record scores [k] times what it scores for the query [w]
    alone, and the same record is returned for both queries. *)
Theorem C7_repeated_word_same_record DATA (query single w : string) (k : nat) :
  0 < k →
  tokenize query = replicate k w →
  tokenize single = [w] →
  (∀ rec, score (tokenize query) rec = k * score (tokenize single) rec)
  ∧ search_passage DATA query = search_passage DATA single.
Proof.
  intros Hk Hq Hs.
  assert (∀ rec, score (tokenize query) rec = k * score (tokenize single) rec) as Hsc.
  { intros rec. rewrite Hq, Hs. apply score_replicate. }
  split; [done|].
  unfold search_passage, scan. rewrite Hs.
  destruct (tokenize query) as [|w' ws] eqn:Hw.
  { destruct k; [lia|done]. }
  rewrite <- Hw in *. rewrite <- Hs in *.
  replace 0 with (k * 0) at 1 by lia.
  by rewrite (scan_scaled (tokenize single) (tokenize query) k).
Qed.

(** C8. Exchanging the translation and the purport of a record leaves
    its score unchanged for every query: each query word is counted in
    the two fields separately, since it holds no space and so cannot
    lie across the junction. *)
Theorem C8_score_symmetric_in_fields (HT : TablesOk T) (query : string) rec :
  score (tokenize query) (swap_fields rec) = score (tokenize query) rec
  ∧ Forall (λ w,
      Py.has_char " " w = false
      ∧ Py.count (comparison_text rec) w
        = Py.count (lower (Py.str (get rec "translation"))) w
          + Py.count (lower (Py.str (get rec "purport"))) w)
      (tokenize query).
Proof.
  split.
  - unfold score. apply sum_list_fmap_ext.
    eapply Forall_impl; [apply findall_words_wordlike|].
    intros w Hw. rewrite !(count_comparison_text HT) by done.
    rewrite get_swap_translation, get_swap_purport. lia.
  - eapply Forall_impl; [apply findall_words_wordlike|].
    intros w Hw. split; [|by apply count_comparison_text].
    apply (wordlike_has_char is_word); [apply (word_space T HT)|done].
Qed.

(** C9. A record returned by [search_passage] scores at least 1 for the
    query: some query word occurs in its comparison text.  Hence it is
    never the empty record, and the handler's test [if record:] passes
    exactly when a record was returned. *)
Theorem C9_returned_record_scores (HT : TablesOk T) DATA (query : string) :
  (∀ rec,
     search_passage DATA query = Some rec →
     1 ≤ score (tokenize query) rec
     ∧ (∃ w, w ∈ tokenize query ∧ occurs_in w (comparison_text rec))
     ∧ rec ≠ ∅
     ∧ bool_decide (rec ≠ ∅) = true)
  ∧ answer DATA query
    = match search_passage DATA query with
      | Some rec => format_record rec
      | None => Ok apology
      end.
Proof.
  assert (∀ rec, search_passage DATA query = Some rec →
                 0 < score (tokenize query) rec ∧ rec ≠ ∅) as Hret.
  { intros rec Hsearch.
    assert (0 < score (tokenize query) rec) as Hpos.
    { unfold search_passage in Hsearch.
      destruct (tokenize query) as [|w ws]; [done|].
      by apply scan_positive in Hsearch as [_ ?]. }
    split; [done|]. intros ->. rewrite (score_empty_record HT) in Hpos. lia. }
  split.
  - intros rec Hsearch. destruct (Hret rec Hsearch) as [Hpos Hne].
    split; [lia|]. split; [|split; [done|by apply bool_decide_eq_true_2]].
    unfold score in Hpos.
    apply sum_list_positive in Hpos as (n & Hin & Hn).
    apply list_elem_of_fmap in Hin as (w & -> & Hw).
    exists w. split; [done|]. apply count_occurs; [|done].
    pose proof (findall_words_wordlike is_word (lower query)) as Hall.
    rewrite Forall_forall in Hall. by destruct (Hall w Hw).
  - unfold answer. destruct (search_passage DATA query) as [rec|] eqn:Hsearch; [|done].
    destruct (Hret rec eq_refl) as [_ Hne]. by rewrite bool_decide_eq_true_2.
Qed.

(** C5. A query without any word character makes [search_passage]
    return nothing whatever the dataset holds, and the answer of
    [POST /ask] to such a question is the fixed apology. *)
Theorem C5_no_word_no_answer (HT : TablesOk T) DATA (query : string) :
  Py.all_chars (λ c, negb (is_word c)) query = true →
  tokenize query = []
  ∧ search_passage DATA query = None
  ∧ (∀ kvs : gmap string json,
       kvs !! "question" = Some (JAtom (VStr query)) →
       ask DATA (Some (JObj kvs))
       = Ok "This information is not available in the provided texts. Chant Hare Krishna and be happy.").
Proof.
  intros H. split; [|split].
  - unfold tokenize. by rewrite findall_words_none by (by apply (lower_nonword T HT)).
  - by apply search_passage_no_word.
  - intros kvs Hq. unfold ask. rewrite (get_question_text _ _ Hq).
    cbn [mbind result_bind].
    apply answer_no_match, search_passage_no_word; [done|].
    by apply strip_all.
Qed.

(** C6. When the dataset file does not exist the loader gives the
    empty list and no error, and from then on every question gets the
    apology. *)
Theorem C6_missing_file_always_apology :
  load_data Missing = Ok []
  ∧ (∀ question : string, search_passage [] question = None)
  ∧ (∀ (body : option json) (question : string),
       get_question body = Ok question →
       serve Missing body
       = Ok "This information is not available in the provided texts. Chant Hare Krishna and be happy.").
Proof.
  assert (∀ question : string, search_passage [] question = None) as Hnone.
  { intros question. unfold search_passage. by destruct (tokenize question). }
  split; [done|]. split; [done|].
  intros body question Hq. unfold serve, ask. cbn [load_data mbind result_bind].
  rewrite Hq. by apply answer_no_match.
Qed.

(** The answer on a record that carries the six keys, with the two
    line feeds of each separator written out as characters, and the
    answer when nothing matches. *)
Lemma ask_format_present DATA (body : option json) (question : string) :
  get_question body = Ok question →
  (∀ rec (translation purport book chapter verse author : value),
     search_passage DATA question = Some rec →
     rec !! "translation" = Some translation →
     rec !! "purport" = Some purport →
     rec !! "book" = Some book →
     rec !! "chapter" = Some chapter →
     rec !! "verse" = Some verse →
     rec !! "author" = Some author →
     ask DATA body
     = Ok (Py.str translation
           +:+ String "010" (String "010" (Py.str purport
           +:+ String "010" (String "010" ("(" +:+ Py.str book
           +:+ ", Chapter " +:+ Py.str chapter
           +:+ ", Verse " +:+ Py.str verse +:+ ") – " +:+ Py.str author +:+ ". "
           +:+ "Chant Hare Krishna and be happy."))))))
  ∧ (search_passage DATA question = None →
     ask DATA body
     = Ok "This information is not available in the provided texts. Chant Hare Krishna and be happy.").
Proof.
  intros Hq. split.
  - intros rec t p b c v a Hsearch Ht Hp Hb Hc Hv Ha.
    unfold ask. rewrite Hq. cbn [mbind result_bind].
    unfold answer. rewrite Hsearch.
    rewrite bool_decide_eq_true_2 by (intros ->; by rewrite lookup_empty in Ht).
    unfold format_record, getitem. rewrite Ht, Hp, Hb, Hc, Hv, Ha.
    cbn [mbind result_bind]. f_equal.
    by rewrite !app_assoc_str.
  - intros Hnone. unfold ask. rewrite Hq. cbn [mbind result_bind].
    by apply answer_no_match.
Qed.

(** C10. A request without JSON, or with JSON that does not parse, is
    answered like an empty question; but a body that is a non-empty
    JSON array, or a dict whose ["question"] is not a text, makes the
    handler fail with an exception. *)
Theorem C10_malformed_body_raises DATA :
  ask DATA None = answer DATA (Py.strip is_space "")
  ∧ (TablesOk T → ask DATA None = Ok apology)
  ∧ (∀ (x : json) (xs : list json),
       ask DATA (Some (JArr (x :: xs))) = Raise AttributeError)
  ∧ (∀ (kvs : gmap string json) (v : json),
       kvs !! "question" = Some v →
       (∀ s, v ≠ JAtom (VStr s)) →
       ask DATA (Some (JObj kvs)) = Raise AttributeError).
Proof.
  split; [|split; [|split]].
  - unfold ask, get_question, request_data. by rewrite lookup_empty.
  - intros HT. unfold ask, get_question, request_data. rewrite lookup_empty.
    cbn [default mbind result_bind].
    by apply answer_no_match, search_passage_no_word.
  - done.
  - intros kvs v Hv Hnot. unfold ask, get_question, request_data, truthy.
    rewrite bool_decide_eq_true_2 by (intros ->; by rewrite lookup_empty in Hv).
    rewrite Hv. cbn [default].
    destruct v as [[| | |s]| |]; try done. by destruct (Hnot s).
Qed.

End Claims.

(** ** The claims on the ASCII tables and the sample data *)

Section Instances.
Import Sample.
#[local] Existing Instance AsciiTables.tables.

(** C2. The matcher reads an absent field as the empty string, but the
    formatter does not: a matched record that lacks a field makes the
    handler raise [KeyError] instead of giving an answer. *)
Theorem C2_formatter_raises_on_absent_field :
  get bare "purport" = VStr ""
  ∧ search_passage [bare] "yoga" = Some bare
  ∧ format_record bare = Raise (KeyError "purport")
  ∧ ask [bare] (asking "yoga") = Raise (KeyError "purport").
Proof. repeat split; vm_compute; reflexivity. Qed.

Lemma C1_witness :
  search_passage [yoga_once; yoga_twice] "yoga" = Some yoga_twice
  ∧ search_passage [yoga_twice; yoga_once] "yoga" = Some yoga_twice
  ∧ search_passage [yoga_once; yoga_twice] "karma" = None.
Proof.
  split; [|split].
  - apply (proj1 (proj2 (C1_search_passage_highest_score
                           [yoga_once; yoga_twice] "yoga")) 1 yoga_twice).
    + reflexivity.
    + exists yoga_once. split; [left|vm_compute; lia].
    + intros [|[|j]] rec' Hj Hrec'.
      * injection Hrec' as <-. vm_compute. lia.
      * done.
      * discriminate Hrec'.
  - apply (proj1 (proj2 (C1_search_passage_highest_score
                           [yoga_twice; yoga_once] "yoga")) 0 yoga_twice).
    + reflexivity.
    + exists yoga_twice. split; [left|vm_compute; lia].
    + intros [|[|j]] rec' Hj Hrec'.
      * done.
      * injection Hrec' as <-. vm_compute. lia.
      * discriminate Hrec'.
  - apply (proj2 (proj2 (proj2 (C1_search_passage_highest_score
                                  [yoga_once; yoga_twice] "karma")))).
    intros rec Hin. apply list_elem_of_In in Hin.
    destruct Hin as [<-|[<-|[]]]; vm_compute; reflexivity.
Defined.

Lemma C4_witness :
  score (tokenize "yoga") yoga_once = score (tokenize "yoga") yoga_also
  ∧ search_passage [dharma_thrice; yoga_once; yoga_also] "yoga" = Some yoga_once.
Proof.
  split; [reflexivity|].
  apply (proj1 (proj2 (proj2 (proj2 (C4_ties_keep_earliest
                                       [dharma_thrice; yoga_once; yoga_also] "yoga"))))
           1 yoga_once).
  - reflexivity.
  - vm_compute. lia.
  - reflexivity.
  - intros [|j] rec' Hj Hrec'.
    + injection Hrec' as <-. vm_compute. lia.
    + lia.
Defined.

(** C4, as stated, fails when the tie is at score 0: two records that
    both attain the largest score 0, and nothing is returned. *)
Lemma C4_counterexample :
  ¬ (score (tokenize "karma") yoga_once
       = best_score (tokenize "karma") [yoga_once; yoga_also] →
     score (tokenize "karma") yoga_also
       = best_score (tokenize "karma") [yoga_once; yoga_also] →
     search_passage [yoga_once; yoga_also] "karma" = Some yoga_once).
Proof.
  intros H. specialize (H eq_refl eq_refl). vm_compute in H. discriminate H.
Qed.

Lemma C7_witness :
  score (tokenize "dharma") dharma_thrice = 3
  ∧ (∀ rec, score (tokenize "dharma dharma") rec = 2 * score (tokenize "dharma") rec)
  ∧ search_passage [dharma_thrice] "dharma dharma" = search_passage [dharma_thrice] "dharma".
Proof.
  split; [reflexivity|].
  apply (C7_repeated_word_same_record [dharma_thrice] "dharma dharma" "dharma" "dharma" 2).
  - lia.
  - reflexivity.
  - reflexivity.
Defined.

Lemma C8_witness :
  score (tokenize "duty dharma") (swap_fields rec_BG) = score (tokenize "duty dharma") rec_BG.
Proof.
  apply (C8_score_symmetric_in_fields ascii_tables_ok "duty dharma" rec_BG).
Defined.

Lemma C9_witness :
  search_passage [rec_BG] "What is my duty?" = Some rec_BG
  ∧ 1 ≤ score (tokenize "What is my duty?") rec_BG
  ∧ rec_BG ≠ ∅.
Proof.
  assert (search_passage [rec_BG] "What is my duty?" = Some rec_BG) as H
    by (vm_compute; reflexivity).
  split; [exact H|].
  destruct (proj1 (C9_returned_record_scores ascii_tables_ok [rec_BG] "What is my duty?")
              rec_BG H) as (Hscore & _ & Hne & _).
  split; [exact Hscore|exact Hne].
Defined.

Lemma C5_witness :
  search_passage [rec_BG] "?? !" = None
  ∧ ask [rec_BG] (asking "?? !") = Ok apology
  ∧ ask [rec_BG] (asking "") = Ok apology
  ∧ ask [rec_BG] (asking "   ") = Ok apology.
Proof.
  split; [|split; [|split]].
  - apply (C5_no_word_no_answer ascii_tables_ok [rec_BG] "?? !"). reflexivity.
  - apply (C5_no_word_no_answer ascii_tables_ok [rec_BG] "?? !"); reflexivity.
  - apply (C5_no_word_no_answer ascii_tables_ok [rec_BG] ""); reflexivity.
  - apply (C5_no_word_no_answer ascii_tables_ok [rec_BG] "   "); reflexivity.
Defined.

Lemma C6_witness :
  serve Missing (asking "What is my duty?") = Ok apology.
Proof.
  apply (proj2 (proj2 C6_missing_file_always_apology)
           (asking "What is my duty?") "What is my duty?").
  reflexivity.
Defined.

(** C3. The answer to a question that matches a record is the
    translation, an empty line, the purport, an empty line, the
    citation and the closing sentence, and the apology when nothing
    matches: so it is for a record that carries the six keys.  But for
    a matched record that lacks one the handler raises [KeyError]
    where the claim asks for that answer with the absent parts empty. *)
Theorem C3_answer_format_breaks_on_absent_field :
  search_passage [bare] "yoga" = Some bare
  ∧ ask [bare] (asking "yoga") = Raise (KeyError "purport")
  ∧ ask [bare] (asking "yoga")
    ≠ Ok ("Yoga is the path"
          +:+ String "010" (String "010" (""
          +:+ String "010" (String "010"
                "(, Chapter , Verse ) – . Chant Hare Krishna and be happy."))))
  ∧ ask [rec_BG] (asking " duty ")
    = Ok ("Perform your duty"
          +:+ String "010" (String "010" ("Duty is dharma"
          +:+ String "010" (String "010"
                "(BG, Chapter 2, Verse 47) – Prabhupada. Chant Hare Krishna and be happy."))))
  ∧ ask [rec_BG] (asking "moksha")
    = Ok "This information is not available in the provided texts. Chant Hare Krishna and be happy.".
Proof.
  assert (ask [bare] (asking "yoga") = Raise (KeyError "purport")) as Hraise
    by (vm_compute; reflexivity).
  split; [vm_compute; reflexivity|]. split; [exact Hraise|].
  split; [rewrite Hraise; discriminate|].
  split; vm_compute; reflexivity.
Qed.

Lemma C10_witness :
  ask [rec_BG] None = Ok apology
  ∧ ask [rec_BG] (Some (JArr [JAtom (VStr "duty")])) = Raise AttributeError
  ∧ ask [rec_BG] (Some (JObj {[ "question" := JAtom (VInt 5) ]})) = Raise AttributeError.
Proof.
  destruct (C10_malformed_body_raises [rec_BG]) as (_ & Hnone & Harr & Hobj).
  split; [exact (Hnone ascii_tables_ok)|]. split; [apply Harr|].
  apply (Hobj _ (JAtom (VInt 5))); [reflexivity|discriminate].
Defined.

End Instances.

(** * Further properties of the matcher *)

Section MatcherFacts.
Context {T : CharTables}.
Implicit Types (words : list string) (DATA : list record) (rec : record).

(** The loop only looks at the scores. *)
Lemma earliest_best_ext words1 words2 DATA :
  (∀ rec, score words1 rec = score words2 rec) →
  earliest_best words1 DATA = earliest_best words2 DATA.
Proof.
  intros Hsc. unfold earliest_best, best_score.
  assert (score words1 <$> DATA = score words2 <$> DATA) as ->.
  { apply list_fmap_ext. intros _ rec _. apply Hsc. }
  generalize (max_list (score words2 <$> DATA)). intros m.
  destruct (m =? 0); [done|].
  induction DATA as [|rec DATA IH]; [done|]. cbn [find]. by rewrite Hsc, IH.
Qed.

Lemma earliest_best_Some words DATA rec :
  earliest_best words DATA = Some rec →
  rec ∈ DATA ∧ score words rec = best_score words DATA ∧ 0 < score words rec.
Proof.
  unfold earliest_best.
  destruct (Nat.eqb_spec (best_score words DATA) 0) as [|Hne]; [done|].
  intros [Hin Heq%Nat.eqb_eq]%find_some.
  split; [by apply list_elem_of_In|]. split; [done|lia].
Qed.

Lemma earliest_best_None words DATA :
  earliest_best words DATA = None → best_score words DATA = 0.
Proof.
  unfold earliest_best.
  destruct (Nat.eqb_spec (best_score words DATA) 0) as [|Hne]; [done|].
  intros Hfind. destruct DATA as [|r DATA]; [done|].
  destruct (best_score_attained words (r :: DATA)) as (rec & Hin & Hrec); [done|].
  apply list_elem_of_In in Hin.
  apply (find_none _ _ Hfind) in Hin. apply Nat.eqb_neq in Hin. done.
Qed.

(** X1. A record returned by [search_passage] is one of the dataset,
    and no record of the dataset scores higher than it. *)
Theorem X1_returned_record_is_best DATA (query : string) rec :
  search_passage DATA query = Some rec →
  rec ∈ DATA
  ∧ ∀ rec', rec' ∈ DATA → score (tokenize query) rec' ≤ score (tokenize query) rec.
Proof.
  rewrite search_passage_earliest_best.
  intros (Hin & Hbest & _)%earliest_best_Some. split; [done|].
  intros rec' Hin'. rewrite Hbest. by apply best_score_ge.
Qed.

(** X2. [search_passage] returns nothing exactly when no record of the
    dataset scores above 0 for the query. *)
Theorem X2_none_iff_all_zero DATA (query : string) :
  search_passage DATA query = None
  ↔ ∀ rec, rec ∈ DATA → score (tokenize query) rec = 0.
Proof.
  split; [|apply search_passage_none].
  rewrite search_passage_earliest_best. intros Hnone%earliest_best_None.
  intros rec Hin. pose proof (best_score_ge (tokenize query) DATA rec Hin). lia.
Qed.

(** X3. The order of the words in a query does not matter: two queries
    with the same words, in any order, give every record the same
    score and return the same record. *)
Theorem X3_word_order_irrelevant DATA (query1 query2 : string) :
  tokenize query1 ≡ₚ tokenize query2 →
  (∀ rec, score (tokenize query1) rec = score (tokenize query2) rec)
  ∧ search_passage DATA query1 = search_passage DATA query2.
Proof.
  intros Hperm.
  assert (∀ rec, score (tokenize query1) rec = score (tokenize query2) rec) as Hsc.
  { intros rec. unfold score. by rewrite Hperm. }
  split; [done|].
  rewrite !search_passage_earliest_best. by apply earliest_best_ext.
Qed.

Lemma best_score_app words DATA1 DATA2 :
  best_score words (DATA1 ++ DATA2)
  = best_score words DATA1 `max` best_score words DATA2.
Proof.
  induction DATA1 as [|rec DATA1 IH]; [done|].
  rewrite <- app_comm_cons, !best_score_cons, IH. lia.
Qed.

(** X4. Searching two datasets put one after the other: the second
    part wins only if one of its records scores strictly higher than
    every record of the first part. *)
Theorem X4_search_passage_app DATA1 DATA2 (query : string) :
  search_passage (DATA1 ++ DATA2) query
  = if best_score (tokenize query) DATA1 <? best_score (tokenize query) DATA2
    then search_passage DATA2 query
    else search_passage DATA1 query.
Proof.
  unfold search_passage, scan.
  destruct (tokenize query) as [|w ws] eqn:Hw.
  { by destruct (_ <? _). }
  rewrite <- Hw. rewrite fold_left_app, !scan_from.
  destruct (Nat.ltb_spec 0 (best_score (tokenize query) DATA1)) as [H1|H1].
  - rewrite scan_from.
    destruct (Nat.ltb_spec (best_score (tokenize query) DATA1)
                (best_score (tokenize query) DATA2)) as [H12|H12]; [|done].
    by rewrite (proj2 (Nat.ltb_lt _ _)) by lia.
  - rewrite scan_from.
    replace (best_score (tokenize query) DATA1) with 0 by lia.
    by destruct (0 <? best_score (tokenize query) DATA2).
Qed.

End MatcherFacts.

(** * Further properties of the tokenizer and of the scores *)

Section TokenizerFacts.
Variable is_word : ascii → bool.

Lemma app_empty_r (s : string) : s +:+ "" = s.
Proof. induction s as [|c s IH]; [done|]. by rewrite app_cons, IH. Qed.

(** Word characters extend the match in progress. *)
Lemma scan_words_run (cur w rest : string) :
  Py.all_chars is_word w = true →
  Py.scan_words is_word cur (w +:+ rest) = Py.scan_words is_word (cur +:+ w) rest.
Proof.
  revert cur. induction w as [|c w IH]; intros cur Hw.
  - by rewrite app_empty_l, app_empty_r.
  - simpl in Hw. apply andb_true_iff in Hw as [Hc Hw].
    rewrite app_cons. cbn [Py.scan_words]. rewrite Hc, IH by done.
    by rewrite app_assoc_str.
Qed.

(** A non-word character closes the match in progress. *)
Lemma scan_words_sep (sep : ascii) (cur a b : string) :
  is_word sep = false →
  Py.scan_words is_word cur (a +:+ String sep b)
  = Py.scan_words is_word cur a ++ Py.scan_words is_word "" b.
Proof.
  intros Hsep. revert cur. induction a as [|c a IH]; intros cur.
  - rewrite app_empty_l. cbn [Py.scan_words]. by rewrite Hsep.
  - rewrite app_cons. cbn [Py.scan_words]. destruct (is_word c).
    + apply IH.
    + by rewrite IH, (assoc_L (++)).
Qed.

Lemma findall_words_sep (sep : ascii) (a b : string) :
  is_word sep = false →
  Py.findall_words is_word (a +:+ String sep b)
  = Py.findall_words is_word a ++ Py.findall_words is_word b.
Proof. apply scan_words_sep. Qed.

Lemma findall_words_word (w : string) :
  wordlike is_word w → Py.findall_words is_word w = [w].
Proof.
  intros [Hne Hw]. unfold Py.findall_words.
  rewrite <- (app_empty_r w) at 1. rewrite scan_words_run by done.
  rewrite app_empty_l. by destruct w.
Qed.

Lemma findall_words_join (sep : ascii) (ws : list string) :
  is_word sep = false → Forall (wordlike is_word) ws →
  Py.findall_words is_word (join sep ws) = ws.
Proof.
  intros Hsep. induction 1 as [|w ws Hw Hws IH]; [done|].
  destruct ws as [|w' ws].
  - by apply findall_words_word.
  - change (join sep (w :: w' :: ws)) with (w +:+ String sep (join sep (w' :: ws))).
    by rewrite findall_words_sep, IH, findall_words_word.
Qed.

(** Occurrences that do not overlap fit into the text. *)
Lemma count_from_bound (sub s : string) (skip : nat) :
  Py.count_from sub skip s * String.length sub ≤ String.length s - skip.
Proof.
  revert skip. induction s as [|c s IH]; intros skip; [simpl; lia|].
  destruct skip as [|k]; cbn [Py.count_from String.length].
  - destruct (Py.startswith sub (String c s)) eqn:Hs.
    + apply startswith_length in Hs. cbn [String.length] in Hs.
      specialize (IH (String.length sub - 1)).
      rewrite Nat.mul_succ_l. lia.
    + specialize (IH 0). lia.
  - specialize (IH k). lia.
Qed.

Lemma count_bound (text sub : string) :
  sub ≠ "" → Py.count text sub * String.length sub ≤ String.length text.
Proof.
  intros Hne. destruct sub as [|c sub]; [done|]. unfold Py.count.
  pose proof (count_from_bound (String c sub) text 0). lia.
Qed.

Lemma count_le_length (text sub : string) :
  sub ≠ "" → Py.count text sub ≤ String.length text.
Proof.
  intros Hne. pose proof (count_bound text sub Hne).
  assert (0 < String.length sub) by (destruct sub; [done|simpl; lia]). nia.
Qed.

End TokenizerFacts.

Section ScoreFacts.
Context {T : CharTables}.
Implicit Types (words : list string) (DATA : list record) (rec : record).

Lemma score_app words1 words2 rec :
  score (words1 ++ words2) rec = score words1 rec + score words2 rec.
Proof. unfold score. by rewrite fmap_app, sum_list_with_app. Qed.

(** X5. Putting two questions one after the other, with a space in
    between, gives the words of the first followed by the words of the
    second, and every record scores the sum of its two scores. *)
Theorem X5_scores_add_over_questions (HT : TablesOk T) (query1 query2 : string) :
  tokenize (query1 +:+ " " +:+ query2) = tokenize query1 ++ tokenize query2
  ∧ ∀ rec, score (tokenize (query1 +:+ " " +:+ query2)) rec
           = score (tokenize query1) rec + score (tokenize query2) rec.
Proof.
  assert (tokenize (query1 +:+ " " +:+ query2) = tokenize query1 ++ tokenize query2) as H.
  { unfold tokenize. rewrite (lower_join T HT).
    apply findall_words_sep, (word_space T HT). }
  split; [done|]. intros rec. by rewrite H, score_app.
Qed.

(** X6. The occurrences counted for a query word do not overlap, so
    together they are no longer than the comparison text; the score of
    a record is at most the number of query words times the length of
    its comparison text. *)
Theorem X6_score_bounded (query : string) rec :
  Forall (λ w, Py.count (comparison_text rec) w * String.length w
               ≤ String.length (comparison_text rec)) (tokenize query)
  ∧ score (tokenize query) rec
    ≤ length (tokenize query) * String.length (comparison_text rec).
Proof.
  pose proof (findall_words_wordlike is_word (lower query)) as Hall.
  fold (tokenize query) in Hall. split.
  - eapply Forall_impl; [exact Hall|]. intros w [Hne _]. by apply count_bound.
  - unfold score. induction Hall as [|w ws [Hne _] _ IH]; [done|].
    csimpl. pose proof (count_le_length (comparison_text rec) w Hne). lia.
Qed.

(** X7. A question that is already in lower case and made of words
    separated by one non-word character is split into exactly these
    words. *)
Theorem X7_tokenize_joined_words (sep : ascii) (ws : list string) :
  is_word sep = false →
  Forall (wordlike is_word) ws →
  lower (join sep ws) = join sep ws →
  tokenize (join sep ws) = ws.
Proof.
  intros Hsep Hws Hlow. unfold tokenize. rewrite Hlow.
  by apply findall_words_join.
Qed.

End ScoreFacts.

(** * Further properties of the request handler *)

Section HandlerFacts.
Context {T : CharTables}.
Implicit Types (words : list string) (DATA : list record) (rec : record).

(** The answer for a record that carries the six keys. *)
Lemma format_record_present rec (t p b c v a : value) :
  rec !! "translation" = Some t → rec !! "purport" = Some p →
  rec !! "book" = Some b → rec !! "chapter" = Some c →
  rec !! "verse" = Some v → rec !! "author" = Some a →
  format_record rec
  = Ok ((Py.str t +:+ Py.LF +:+ Py.LF +:+ Py.str p +:+ Py.LF +:+ Py.LF
         +:+ "(" +:+ Py.str b +:+ ", Chapter " +:+ Py.str c
         +:+ ", Verse " +:+ Py.str v +:+ ") – " +:+ Py.str a +:+ ". ")
        +:+ benediction).
Proof.
  intros Ht Hp Hb Hc Hv Ha. unfold format_record, getitem.
  rewrite Ht, Hp, Hb, Hc, Hv, Ha. cbn [mbind result_bind]. f_equal.
  by rewrite !app_assoc_str.
Qed.

Lemma complete_lookup rec :
  complete rec ↔
  is_Some (rec !! "translation") ∧ is_Some (rec !! "purport")
  ∧ is_Some (rec !! "book") ∧ is_Some (rec !! "chapter")
  ∧ is_Some (rec !! "verse") ∧ is_Some (rec !! "author").
Proof.
  unfold complete, answer_fields. rewrite !Forall_cons, Forall_nil. tauto.
Qed.

(** X8. The formatter succeeds exactly on the records that carry the
    six keys it reads; on any other record it raises [KeyError] for a
    key the record lacks, the first one in reading order. *)
Theorem X8_format_record_needs_all_fields rec :
  (complete rec ↔ ∃ text, format_record rec = Ok text)
  ∧ (∀ e, format_record rec = Raise e →
       ∃ before key after,
         answer_fields = before ++ key :: after
         ∧ Forall (λ k, is_Some (rec !! k)) before
         ∧ rec !! key = None
         ∧ e = KeyError key).
Proof.
  split.
  - rewrite complete_lookup. split.
    + intros ([t Ht] & [p Hp] & [b Hb] & [c Hc] & [v Hv] & [a Ha]).
      eexists. by apply (format_record_present rec t p b c v a).
    + intros [text Htext]. unfold format_record, getitem in Htext.
      destruct (rec !! "translation"); [|done].
      destruct (rec !! "purport"); [|done].
      destruct (rec !! "book"); [|done].
      destruct (rec !! "chapter"); [|done].
      destruct (rec !! "verse"); [|done].
      destruct (rec !! "author"); [|done].
      repeat split; by eexists.
  - intros e He. unfold format_record, getitem in He.
    destruct (rec !! "translation") eqn:Ht;
      [|exists [], "translation", (tail answer_fields); by simplify_eq/=].
    destruct (rec !! "purport") eqn:Hp;
      [|exists (take 1 answer_fields), "purport", (drop 2 answer_fields);
        simplify_eq/=; repeat split; by repeat constructor].
    destruct (rec !! "book") eqn:Hb;
      [|exists (take 2 answer_fields), "book", (drop 3 answer_fields);
        simplify_eq/=; repeat split; by repeat constructor].
    destruct (rec !! "chapter") eqn:Hc;
      [|exists (take 3 answer_fields), "chapter", (drop 4 answer_fields);
        simplify_eq/=; repeat split; by repeat constructor].
    destruct (rec !! "verse") eqn:Hv;
      [|exists (take 4 answer_fields), "verse", (drop 5 answer_fields);
        simplify_eq/=; repeat split; by repeat constructor].
    destruct (rec !! "author") eqn:Ha;
      [|exists (take 5 answer_fields), "author", (drop 6 answer_fields);
        simplify_eq/=; repeat split; by repeat constructor].
    done.
Qed.

Lemma search_passage_elem_of DATA (query : string) rec :
  search_passage DATA query = Some rec → rec ∈ DATA.
Proof.
  rewrite search_passage_earliest_best. by intros [? _]%earliest_best_Some.
Qed.

(** X9. When every record of the dataset carries the six keys, every
    request whose question can be read gets an answer, never an
    exception, and the answer ends with the closing sentence. *)
Theorem X9_answers_end_with_benediction DATA (body : option json) (question : string) :
  Forall complete DATA →
  get_question body = Ok question →
  ∃ text, ask DATA body = Ok text ∧ ends_with benediction text.
Proof.
  intros Hdata Hq. unfold ask. rewrite Hq. cbn [mbind result_bind]. unfold answer.
  destruct (search_passage DATA question) as [rec|] eqn:Hsearch.
  - apply search_passage_elem_of in Hsearch.
    rewrite Forall_forall in Hdata. specialize (Hdata rec Hsearch).
    apply complete_lookup in Hdata
      as ([t Ht] & [p Hp] & [b Hb] & [c Hc] & [v Hv] & [a Ha]).
    rewrite bool_decide_eq_true_2 by (intros ->; by rewrite lookup_empty in Ht).
    rewrite (format_record_present rec t p b c v a) by done.
    eexists. split; [done|]. by eexists.
  - exists apology. split; [done|].
    by exists "This information is not available in the provided texts. ".
Qed.

(** X10. A body whose JSON value is false for Python ([null], [false],
    [0], the empty string, array or object), and a dict without the
    key ["question"], are handled like a request without a body. *)
Theorem X10_falsy_body_is_no_body DATA :
  (∀ j : json, truthy j = false → ask DATA (Some j) = ask DATA None)
  ∧ (∀ kvs : gmap string json,
       kvs !! "question" = None → ask DATA (Some (JObj kvs)) = ask DATA None).
Proof.
  split.
  - intros j Hj. unfold ask, get_question, request_data. by rewrite Hj.
  - intros kvs Hq. unfold ask, get_question, request_data.
    destruct (truthy (JObj kvs)); [|done]. by rewrite Hq, lookup_empty.
Qed.

(** Stripping commutes with the words when blanks are not word
    characters. *)
Lemma findall_words_lstrip (s : string) :
  (∀ c, is_space c = true → is_word c = false) →
  Py.findall_words is_word (Py.lstrip is_space s) = Py.findall_words is_word s.
Proof.
  intros Hsw. unfold Py.findall_words. induction s as [|c s IH]; [done|].
  cbn [Py.lstrip]. destruct (is_space c) eqn:Hc; [|done].
  cbn [Py.scan_words]. by rewrite (Hsw c Hc).
Qed.

Lemma scan_words_rstrip (cur s : string) :
  (∀ c, is_space c = true → is_word c = false) →
  Py.scan_words is_word cur (Py.rstrip is_space s) = Py.scan_words is_word cur s.
Proof.
  intros Hsw. revert cur. induction s as [|c s IH]; intros cur; [done|].
  cbn [Py.rstrip]. destruct (Py.rstrip is_space s) as [|d r] eqn:Hr.
  - destruct (is_space c) eqn:Hc.
    + cbn [Py.scan_words]. rewrite (Hsw c Hc), <- IH.
      cbn [Py.scan_words Py.flush]. by rewrite (right_id_L [] (++)).
    + cbn [Py.scan_words]. destruct (is_word c); by rewrite <- IH.
  - cbn [Py.scan_words]. destruct (is_word c); by rewrite <- IH.
Qed.

Lemma findall_words_strip (s : string) :
  (∀ c, is_space c = true → is_word c = false) →
  Py.findall_words is_word (Py.strip is_space s) = Py.findall_words is_word s.
Proof.
  intros Hsw. unfold Py.strip, Py.findall_words.
  rewrite scan_words_rstrip by done. by apply findall_words_lstrip.
Qed.

(** X11. The handler strips the question before the search, and this
    changes nothing: blanks are not word characters, so the question
    as sent and the stripped question have the same words and get the
    same answer. *)
Theorem X11_strip_changes_nothing DATA (kvs : gmap string json) (question : string) :
  (∀ c, is_space c = true → is_word c = false) →
  (∀ s, lower (Py.strip is_space s) = Py.strip is_space (lower s)) →
  kvs !! "question" = Some (JAtom (VStr question)) →
  tokenize (Py.strip is_space question) = tokenize question
  ∧ ask DATA (Some (JObj kvs)) = answer DATA question.
Proof.
  intros Hsw Hlow Hq.
  assert (tokenize (Py.strip is_space question) = tokenize question) as Htok.
  { unfold tokenize. rewrite Hlow. by apply findall_words_strip. }
  split; [done|].
  unfold ask. rewrite (get_question_text _ _ Hq). cbn [mbind result_bind].
  unfold answer, search_passage. by rewrite Htok.
Qed.

End HandlerFacts.

(** * The further properties on the ASCII tables and the sample data *)

Section MoreAsciiFacts.
Import AsciiTables.

Lemma space_not_word (c : ascii) : space c = true → word c = false.
Proof. destruct c as [[] [] [] [] [] [] [] []]; vm_compute; congruence. Qed.

Lemma space_lower_char (c : ascii) : space (lower_char c) = space c.
Proof. by destruct c as [[] [] [] [] [] [] [] []]. Qed.

Lemma lower_string_lstrip (s : string) :
  lower_string (Py.lstrip space s) = Py.lstrip space (lower_string s).
Proof.
  induction s as [|c s IH]; [done|].
  cbn [Py.lstrip lower_string]. rewrite space_lower_char.
  by destruct (space c).
Qed.

Lemma lower_string_rstrip (s : string) :
  lower_string (Py.rstrip space s) = Py.rstrip space (lower_string s).
Proof.
  induction s as [|c s IH]; [done|].
  cbn [Py.rstrip lower_string]. rewrite <- IH, space_lower_char.
  destruct (Py.rstrip space s) as [|d r]; [|done].
  cbn [lower_string]. by destruct (space c).
Qed.

Lemma lower_string_strip (s : string) :
  lower_string (Py.strip space s) = Py.strip space (lower_string s).
Proof. unfold Py.strip. by rewrite lower_string_rstrip, lower_string_lstrip. Qed.

End MoreAsciiFacts.

Section MoreInstances.
Import Sample.
#[local] Existing Instance AsciiTables.tables.

Lemma X1_witness :
  yoga_twice ∈ [yoga_once; yoga_twice]
  ∧ score (tokenize "yoga") yoga_once ≤ score (tokenize "yoga") yoga_twice.
Proof.
  assert (search_passage [yoga_once; yoga_twice] "yoga" = Some yoga_twice) as H
    by (vm_compute; reflexivity).
  destruct (X1_returned_record_is_best [yoga_once; yoga_twice] "yoga" yoga_twice H)
    as [Hin Hbest].
  split; [exact Hin|]. apply Hbest. left.
Defined.

Lemma X2_witness :
  search_passage [yoga_once; yoga_twice] "karma" = None.
Proof.
  apply (proj2 (X2_none_iff_all_zero [yoga_once; yoga_twice] "karma")).
  intros rec Hin. apply list_elem_of_In in Hin.
  destruct Hin as [<-|[<-|[]]]; vm_compute; reflexivity.
Defined.

Lemma X3_witness :
  search_passage [rec_BG; dharma_thrice] "duty dharma"
  = search_passage [rec_BG; dharma_thrice] "dharma duty".
Proof.
  apply (X3_word_order_irrelevant [rec_BG; dharma_thrice] "duty dharma" "dharma duty").
  change (["duty"; "dharma"] ≡ₚ ["dharma"; "duty"]). apply perm_swap.
Defined.

Lemma X5_witness :
  tokenize "what is" ++ tokenize "my duty" = ["what"; "is"; "my"; "duty"]
  ∧ score (tokenize ("what is" +:+ " " +:+ "my duty")) rec_BG
    = score (tokenize "what is") rec_BG + score (tokenize "my duty") rec_BG.
Proof.
  split; [reflexivity|].
  apply (X5_scores_add_over_questions ascii_tables_ok "what is" "my duty").
Defined.

Lemma X7_witness :
  tokenize "perform your duty" = ["perform"; "your"; "duty"].
Proof.
  apply (X7_tokenize_joined_words " " ["perform"; "your"; "duty"]).
  - reflexivity.
  - repeat constructor; done.
  - reflexivity.
Defined.

Lemma X8_witness :
  ∃ before key after,
    answer_fields = before ++ key :: after
    ∧ Forall (λ k, is_Some (bare !! k)) before
    ∧ bare !! key = None
    ∧ KeyError "purport" = KeyError key.
Proof.
  apply (proj2 (X8_format_record_needs_all_fields bare)). reflexivity.
Defined.

Lemma X9_witness :
  ∃ text, ask [rec_BG; yoga_once] (asking "What is my duty?") = Ok text
          ∧ ends_with benediction text.
Proof.
  apply (X9_answers_end_with_benediction [rec_BG; yoga_once]
           (asking "What is my duty?") "What is my duty?").
  - repeat constructor; by eexists.
  - reflexivity.
Defined.

Lemma X10_witness :
  ask [rec_BG] (Some (JArr [])) = ask [rec_BG] None
  ∧ ask [rec_BG] (Some (JObj {[ "topic" := JAtom (VStr "duty") ]})) = ask [rec_BG] None.
Proof.
  destruct (X10_falsy_body_is_no_body [rec_BG]) as [Hfalsy Hkey].
  split; [by apply Hfalsy|by apply Hkey].
Defined.

Lemma X11_witness :
  ask [rec_BG] (asking "  my duty  ") = answer [rec_BG] "  my duty  ".
Proof.
  apply (X11_strip_changes_nothing [rec_BG] {[ "question" := JAtom (VStr "  my duty  ") ]}
           "  my duty  ").
  - apply space_not_word.
  - apply lower_string_strip.
  - reflexivity.
Defined.

End MoreInstances.

(** * Letter case *)

Section CaseFacts.
Context {T : CharTables}.
Implicit Types (words : list string) (DATA : list record) (rec : record).

(** X12. Matching ignores letter case on both sides: a question and
    its lower-case form return the same record, and writing the
    translation or the purport of a record in lower case changes none
    of its scores. *)
Theorem X12_case_insensitive (HT : TablesOk T) DATA (query : string) :
  (∀ s, lower (lower s) = lower s) →
  search_passage DATA (lower query) = search_passage DATA query
  ∧ (∀ rec words (text : string),
       rec !! "translation" = Some (VStr text) →
       score words (<["translation" := VStr (lower text)]> rec) = score words rec)
  ∧ (∀ rec words (text : string),
       rec !! "purport" = Some (VStr text) →
       score words (<["purport" := VStr (lower text)]> rec) = score words rec).
Proof.
  intros Hidem. split; [|split].
  - unfold search_passage, tokenize. by rewrite Hidem.
  - intros rec words text Ht. unfold score, comparison_text, get.
    rewrite lookup_insert_eq, lookup_insert_ne, Ht by done. cbn [default from_option id Py.str].
    by rewrite !(lower_join T HT), Hidem.
  - intros rec words text Hp. unfold score, comparison_text, get.
    rewrite lookup_insert_eq, lookup_insert_ne, Hp by done. cbn [default from_option id Py.str].
    by rewrite !(lower_join T HT), Hidem.
Qed.

End CaseFacts.

Section CaseInstances.
Import Sample AsciiTables.
#[local] Existing Instance AsciiTables.tables.

Lemma lower_char_idemp (c : ascii) : lower_char (lower_char c) = lower_char c.
Proof. by destruct c as [[] [] [] [] [] [] [] []]. Qed.

Lemma lower_string_idemp (s : string) : lower_string (lower_string s) = lower_string s.
Proof.
  induction s as [|c s IH]; [done|]. cbn [lower_string].
  by rewrite lower_char_idemp, IH.
Qed.

Lemma X12_witness :
  search_passage [rec_BG] (lower "What Is My DUTY?") = search_passage [rec_BG] "What Is My DUTY?"
  ∧ score ["duty"] (<["translation" := VStr (lower "Perform your duty")]> rec_BG)
    = score ["duty"] rec_BG.
Proof.
  destruct (X12_case_insensitive ascii_tables_ok [rec_BG] "What Is My DUTY?"
              lower_string_idemp) as (Hq & Ht & _).
  split; [exact Hq|]. apply Ht. reflexivity.
Defined.

End CaseInstances.
